(** * The zmake C example project: [examples/c-project/main.c]

    A shallow embedding of the example program's [main] and the
    properties its specification states about it.

    The program writes to standard output through [printf] only.  The
    world is the sequence of texts written so far, one entry per
    [printf] call; the byte stream seen by a reader of standard output
    is their concatenation.  Behaviour the C standard leaves undefined
    (signed overflow, reading [argv] out of range, a missing or
    ill-typed [printf] argument) is an explicit failure of the
    computation. *)

From Equations Require Import Equations.
From Stdlib Require Import ZArith List String Ascii Lia Bool.
From Stdlib Require Import Decimal DecimalString DecimalPos DecimalZ.
Import ListNotations.

Local Open Scope string_scope.
Local Open Scope Z_scope.

(** ** C integers *)

Module CInt.

(** The largest value of type [int]. *)
Definition INT_MAX : Z := 2147483647.

(** [%d]: the decimal digits of a signed integer, with a leading
    minus sign for a negative one. *)
Definition dec (z : Z) : string := NilZero.string_of_int (Z.to_int z).

(** Reading back a decimal numeral. *)
Definition undec (s : string) : option Z :=
  option_map Z.of_int (NilZero.int_of_string s).

End CInt.

(** ** Characters and C strings *)

Module CString.

Definition NUL : ascii := "000"%char.
Definition LF : ascii := "010"%char.

(** The text of the C string stored in a buffer whose bytes are [s]
    followed by a terminator: the characters before the first NUL. *)
Fixpoint c_text (s : string) : string :=
  match s with
  | EmptyString => EmptyString
  | String c r => if Ascii.eqb c NUL then EmptyString else String c (c_text r)
  end.

(** [mentions c s]: the character [c] occurs in [s]. *)
Fixpoint mentions (c : ascii) (s : string) : bool :=
  match s with
  | EmptyString => false
  | String d r => Ascii.eqb d c || mentions c r
  end.

(** A text an execution environment can pass as an argument: no
    embedded terminator. *)
Definition is_c_string (s : string) : bool := negb (mentions NUL s).

(** The lines of a text: its runs of characters ended by a line
    feed, without the line feed.  Characters after the last line feed
    are not a line. *)
Fixpoint text_lines (s : string) : list string :=
  match s with
  | EmptyString => []
  | String c r =>
      if Ascii.eqb c LF then EmptyString :: text_lines r
      else match text_lines r with
           | [] => []
           | l :: ls => String c l :: ls
           end
  end.

End CString.

(** ** Standard output and the [printf] conversions the program uses *)

Module Stdio.
Import CInt CString.

(** A variadic argument of [printf]. *)
Inductive arg : Type :=
| Aint (z : Z)
| Astr (s : string).

(** Expansion of a format string.  Only [%d] and [%s] occur in the
    program; any other use of [%], a missing argument and an argument
    of the wrong type are undefined.  Arguments left over are
    ignored. *)
Fixpoint format (fmt : string) (args : list arg) : option string :=
  match fmt with
  | EmptyString => Some EmptyString
  | String c rest =>
      if Ascii.eqb c "%"%char then
        match rest with
        | String k rest' =>
            if Ascii.eqb k "d"%char then
              match args with
              | Aint z :: args' =>
                  option_map (append (dec z)) (format rest' args')
              | _ => None
              end
            else if Ascii.eqb k "s"%char then
              match args with
              | Astr s :: args' =>
                  option_map (append (c_text s)) (format rest' args')
              | _ => None
              end
            else None
        | EmptyString => None
        end
      else option_map (String c) (format rest args)
  end.

(** The world: what has been written to standard output, oldest
    first, one entry per [printf] call. *)
Record world : Type := { stdout : list string }.

Definition start : world := {| stdout := [] |}.

(** The byte stream a reader of standard output sees. *)
Definition stream (w : world) : string :=
  fold_right append EmptyString (stdout w).

(** Computations over the world that may be undefined. *)
Definition M (A : Type) : Type := world -> option (A * world).

Definition ret {A} (a : A) : M A := fun w => Some (a, w).

Definition bind {A B} (m : M A) (k : A -> M B) : M B :=
  fun w => match m w with
           | Some (a, w') => k a w'
           | None => None
           end.

Definition undefined {A} : M A := fun _ => None.

(** [printf]: append the expanded format to standard output and
    return the number of characters written (the program never looks
    at it).  Write failures are not modelled. *)
Definition printf (fmt : string) (args : list arg) : M Z :=
  fun w => match format fmt args with
           | Some text =>
               Some (Z.of_nat (String.length text),
                     {| stdout := (stdout w ++ [text])%list |})
           | None => None
           end.

End Stdio.

Declare Scope cmd_scope.
Delimit Scope cmd_scope with cmd.
Notation "x <- m ;; k" := (Stdio.bind m (fun x => k))
  (at level 61, m at next level, right associativity) : cmd_scope.
Notation "m ;; k" := (Stdio.bind m (fun _ => k))
  (at level 61, right associativity) : cmd_scope.

(** ** The program *)

Module Main.
Import CInt CString Stdio.
Local Open Scope cmd_scope.

(** The two preprocessor symbols the program tests with [#ifdef]. *)
Record defines : Type := { DEBUG : bool; NDEBUG : bool }.

(** The UTF-8 encoding of U+1F525, the last character of the
    greeting. *)
Definition fire : string :=
  String "240" (String "159" (String "148" (String "165" EmptyString))).

Definition nl : string := String LF EmptyString.

(** [argv[i]]: the pointer stored at index [i].  [argv] holds the
    argument strings; the slot after them is a null pointer and
    anything further is out of the array, so only an index below the
    length yields a string. *)
Definition argv_at (argv : list string) (i : Z) : M string :=
  if i <? 0 then undefined
  else match nth_error argv (Z.to_nat i) with
       | Some s => ret s
       | None => undefined
       end.

(** The body of the [for] loop. *)
Definition loop_body (argv : list string) (i : Z) : M unit :=
  s <- argv_at argv i ;;
  _ <- printf ("  [%d]: %s" ++ nl) [Aint i; Astr s] ;;
  ret tt.

(** [for (int i = ...; i < argc; i++) { ... }], from the current value
    of [i].  The increment [i++] of an [int] is undefined when it
    overflows, that is unless [i < INT_MAX]. *)
Equations? for_loop (argc : Z) (argv : list string) (i : Z) : M unit
  by wf (Z.to_nat (argc - i)) lt :=
  for_loop argc argv i with Z_lt_dec i argc := {
    | left _ =>
        loop_body argv i ;;
        (if i <? INT_MAX then for_loop argc argv (i + 1) else undefined)
    | right _ => ret tt }.
Proof. lia. Qed.

(** [int main(int argc, char *argv[])], compiled with the symbols
    [D]. *)
Definition main (D : defines) (argc : Z) (argv : list string) : M Z :=
  printf ("Hello from C compiled with zmake! " ++ fire ++ nl) [] ;;
  printf ("Arguments: %d" ++ nl) [Aint argc] ;;
  for_loop argc argv 0 ;;
  (if DEBUG D then printf ("Debug mode enabled" ++ nl) [] ;; ret tt
   else ret tt) ;;
  (if NDEBUG D then printf ("Release mode (optimized)" ++ nl) [] ;; ret tt
   else ret tt) ;;
  ret 0.

(** What the execution environment does with an invocation: it calls
    [main] with the number of argument strings and the strings, on a
    standard output nothing has been written to. *)
Definition run (D : defines) (inv : list string) : option (Z * world) :=
  main D (Z.of_nat (List.length inv)) inv start.

End Main.

(** ** The output the specification describes *)

Module Spec.
Import CInt CString Stdio Main.

(** An invocation: the argument strings the execution environment
    hands to the program, the program name first.  Each is the text
    of a C string, and their number is a value of [int]. *)
Definition invocation_ok (inv : list string) : bool :=
  forallb is_c_string inv && (Z.of_nat (List.length inv) <=? INT_MAX).

Definition Invocation (inv : list string) : Prop :=
  invocation_ok inv = true.

Definition EXIT_SUCCESS : Z := 0.

Definition greeting_line : string :=
  "Hello from C compiled with zmake! " ++ fire ++ nl.

Definition count_line (n : Z) : string := "Arguments: " ++ dec n ++ nl.

Definition arg_line (i : Z) (a : string) : string :=
  "  [" ++ dec i ++ "]: " ++ a ++ nl.

Definition debug_line : string := "Debug mode enabled" ++ nl.

Definition release_line : string := "Release mode (optimized)" ++ nl.

(** One line per element, numbered upwards from [i]. *)
Fixpoint arg_lines_from (i : Z) (inv : list string) : list string :=
  match inv with
  | [] => []
  | a :: rest => arg_line i a :: arg_lines_from (i + 1) rest
  end.

Definition arg_lines (inv : list string) : list string :=
  arg_lines_from 0 inv.

Definition mode_lines (D : defines) : list string :=
  ((if DEBUG D then [debug_line] else [])
   ++ (if NDEBUG D then [release_line] else []))%list.

(** Everything a run writes, in order. *)
Definition transcript (D : defines) (inv : list string) : list string :=
  ([greeting_line; count_line (Z.of_nat (List.length inv))]
   ++ arg_lines inv ++ mode_lines D)%list.

End Spec.

(** ** Counting and joining lines *)

Module Lines.
Import CString Main.

(** How often the character [c] occurs in [s]. *)
Fixpoint occurrences (c : ascii) (s : string) : nat :=
  match s with
  | EmptyString => O
  | String d r => ((if Ascii.eqb d c then 1 else 0) + occurrences c r)%nat
  end.

(** The line feeds held by the elements of an invocation. *)
Definition line_feeds (inv : list string) : nat :=
  list_sum (map (occurrences LF) inv).

(** Lines put back into a text, each followed by its line feed. *)
Definition unlines (ls : list string) : string :=
  fold_right (fun l s => l ++ nl ++ s) EmptyString ls.

(** No element holds a line feed. *)
Definition line_free (inv : list string) : bool :=
  forallb (fun a => negb (mentions LF a)) inv.

End Lines.

Import CInt CString Stdio Main Spec Lines.
Local Open Scope cmd_scope.

(** ** Basic facts *)

Section Texts.

Lemma c_text_id (s : string) : mentions NUL s = false -> c_text s = s.
Proof.
  induction s as [|c r IH]; simpl; [reflexivity|].
  intros H. apply orb_false_elim in H as [Hc Hr].
  rewrite Hc, (IH Hr). reflexivity.
Qed.

Lemma c_text_no_nul (s : string) : mentions NUL (c_text s) = false.
Proof.
  induction s as [|c r IH]; simpl; [reflexivity|].
  destruct (Ascii.eqb c NUL) eqn:E; simpl; [reflexivity|].
  rewrite E, IH. reflexivity.
Qed.

Lemma dec_undec (z : Z) : undec (dec z) = Some z.
Proof.
  unfold undec, dec.
  rewrite NilZero.isi.
  - simpl. rewrite DecimalZ.of_to. reflexivity.
  - destruct z; simpl; try discriminate.
    intros [= H]. exact (DecimalPos.Unsigned.to_uint_nonnil _ H).
  - destruct z; simpl; try discriminate.
    intros [= H]. exact (DecimalPos.Unsigned.to_uint_nonnil _ H).
Qed.

Lemma dec_inj (x y : Z) : dec x = dec y -> x = y.
Proof.
  intros H. apply (f_equal undec) in H.
  rewrite !dec_undec in H. congruence.
Qed.

End Texts.

(** ** The [printf] calls of the program *)

Section Formats.

Lemma format_greeting :
  format ("Hello from C compiled with zmake! " ++ fire ++ nl) []
  = Some greeting_line.
Proof. reflexivity. Qed.

Lemma format_count (n : Z) :
  format ("Arguments: %d" ++ nl) [Aint n] = Some (count_line n).
Proof. reflexivity. Qed.

Lemma format_arg (i : Z) (a : string) :
  format ("  [%d]: %s" ++ nl) [Aint i; Astr a]
  = Some (arg_line i (c_text a)).
Proof. reflexivity. Qed.

Lemma format_debug : format ("Debug mode enabled" ++ nl) [] = Some debug_line.
Proof. reflexivity. Qed.

Lemma format_release :
  format ("Release mode (optimized)" ++ nl) [] = Some release_line.
Proof. reflexivity. Qed.

Lemma printf_writes (fmt : string) (args : list arg) (text : string)
      (w : world) :
  format fmt args = Some text ->
  printf fmt args w
  = Some (Z.of_nat (String.length text),
          {| stdout := (stdout w ++ [text])%list |}).
Proof. intros H. unfold printf. rewrite H. reflexivity. Qed.

End Formats.

(** ** The loop *)

Section Loop.

(** The loop unfolds as the [for] statement reads. *)
Lemma for_loop_step (argc : Z) (argv : list string) (i : Z) :
  for_loop argc argv i
  = if i <? argc
    then loop_body argv i ;;
         (if i <? INT_MAX then for_loop argc argv (i + 1) else undefined)
    else ret tt.
Proof.
  rewrite for_loop_equation_1.
  destruct (Z_lt_dec i argc) as [H|H].
  - rewrite for_loop_clause_1_equation_1.
    apply Z.ltb_lt in H. rewrite H. reflexivity.
  - destruct (Z.ltb_spec i argc); [contradiction | reflexivity].
Qed.

Lemma for_loop_exit (argc : Z) (argv : list string) (i : Z) (w : world) :
  argc <= i -> for_loop argc argv i w = Some (tt, w).
Proof.
  intros H. rewrite for_loop_step.
  apply Z.ltb_ge in H. rewrite H. reflexivity.
Qed.

Lemma argv_at_nth (argv : list string) (n : nat) (a : string) (w : world) :
  nth_error argv n = Some a -> argv_at argv (Z.of_nat n) w = Some (a, w).
Proof.
  intros H. unfold argv_at.
  destruct (Z.of_nat n <? 0) eqn:E; [apply Z.ltb_lt in E; lia|].
  rewrite Nat2Z.id, H. reflexivity.
Qed.

Lemma loop_body_writes (argv : list string) (n : nat) (a : string)
      (w : world) :
  nth_error argv n = Some a ->
  loop_body argv (Z.of_nat n) w
  = Some (tt, {| stdout := (stdout w
                            ++ [arg_line (Z.of_nat n) (c_text a)])%list |}).
Proof.
  intros H. unfold loop_body, bind.
  rewrite (argv_at_nth _ _ _ _ H).
  rewrite (printf_writes _ _ _ _ (format_arg (Z.of_nat n) a)).
  reflexivity.
Qed.

(** From index [length done], with [todo] still to print, the loop
    writes one line per element of [todo] and stops. *)
Lemma for_loop_writes (todo done : list string) (w : world) :
  Z.of_nat (List.length (done ++ todo)) <= INT_MAX ->
  for_loop (Z.of_nat (List.length (done ++ todo))) (done ++ todo)
           (Z.of_nat (List.length done)) w
  = Some (tt, {| stdout := (stdout w
                            ++ arg_lines_from (Z.of_nat (List.length done))
                                              (map c_text todo))%list |}).
Proof.
  revert done w.
  induction todo as [|a todo IH]; intros done w Hmax.
  - rewrite for_loop_exit by (rewrite app_nil_r; lia).
    simpl. rewrite app_nil_r. destruct w; reflexivity.
  - rewrite for_loop_step.
    assert (Hlt : Z.of_nat (List.length done)
                  < Z.of_nat (List.length (done ++ a :: todo)))
      by (rewrite length_app; simpl; lia).
    pose proof Hlt as Hb. apply Z.ltb_lt in Hb. rewrite Hb.
    unfold bind at 1.
    rewrite (loop_body_writes _ _ a)
      by (rewrite nth_error_app2 by lia; rewrite Nat.sub_diag; reflexivity).
    assert (Hi : (Z.of_nat (List.length done) <? INT_MAX) = true)
      by (apply Z.ltb_lt; lia).
    rewrite Hi.
    replace (done ++ a :: todo)%list with ((done ++ [a]) ++ todo)%list
      by (rewrite <- app_assoc; reflexivity).
    replace (Z.of_nat (List.length done) + 1)
      with (Z.of_nat (List.length (done ++ [a])))
      by (rewrite length_app; simpl; lia).
    rewrite IH by (rewrite <- app_assoc; exact Hmax).
    simpl stdout. rewrite <- app_assoc. simpl.
    replace (Z.of_nat (List.length (done ++ [a])))
      with (Z.of_nat (List.length done) + 1)
      by (rewrite length_app; simpl; lia).
    reflexivity.
Qed.

End Loop.

(** ** Invocations *)

Section Invocations.

Lemma Invocation_fits (inv : list string) :
  Invocation inv -> Z.of_nat (List.length inv) <= INT_MAX.
Proof.
  unfold Invocation, invocation_ok. intros H.
  apply andb_prop in H as [_ H]. apply Z.leb_le. exact H.
Qed.

Lemma Invocation_texts (inv : list string) :
  Invocation inv -> map c_text inv = inv.
Proof.
  unfold Invocation, invocation_ok. intros H.
  apply andb_prop in H as [H _].
  induction inv as [|a inv IH]; simpl in *; [reflexivity|].
  apply andb_prop in H as [Ha H].
  apply negb_true_iff in Ha.
  rewrite (c_text_id _ Ha), (IH H). reflexivity.
Qed.

End Invocations.

(** ** The whole program *)

Section Whole.

Lemma mode_debug_writes (D : defines) (w : world) :
  (if DEBUG D then printf ("Debug mode enabled" ++ nl) [] ;; ret tt
   else ret tt) w
  = Some (tt, {| stdout := (stdout w
                            ++ (if DEBUG D then [debug_line] else []))%list |}).
Proof.
  destruct (DEBUG D).
  - unfold bind. rewrite (printf_writes _ _ _ _ format_debug). reflexivity.
  - rewrite app_nil_r. destruct w; reflexivity.
Qed.

Lemma mode_release_writes (D : defines) (w : world) :
  (if NDEBUG D then printf ("Release mode (optimized)" ++ nl) [] ;; ret tt
   else ret tt) w
  = Some (tt, {| stdout := (stdout w
                            ++ (if NDEBUG D then [release_line] else []))%list |}).
Proof.
  destruct (NDEBUG D).
  - unfold bind. rewrite (printf_writes _ _ _ _ format_release). reflexivity.
  - rewrite app_nil_r. destruct w; reflexivity.
Qed.

(** [main] called as the environment calls it, whatever has been
    written before: it returns 0 and has appended the greeting, the
    count, one line per argument text and the mode lines. *)
Lemma main_writes (D : defines) (inv : list string) (w : world) :
  Z.of_nat (List.length inv) <= INT_MAX ->
  main D (Z.of_nat (List.length inv)) inv w
  = Some (0, {| stdout := (stdout w
                           ++ transcript D (map c_text inv))%list |}).
Proof.
  intros Hmax. unfold main.
  unfold bind at 1.
  rewrite (printf_writes _ _ _ _ format_greeting).
  unfold bind at 1.
  rewrite (printf_writes _ _ _ _ (format_count _)).
  unfold bind at 1.
  rewrite (for_loop_writes inv [] _ Hmax).
  unfold bind at 1. rewrite mode_debug_writes.
  unfold bind at 1. rewrite mode_release_writes.
  unfold ret, transcript, arg_lines, mode_lines. simpl stdout.
  rewrite length_map.
  repeat rewrite <- app_assoc. reflexivity.
Qed.

Lemma run_writes (D : defines) (inv : list string) :
  Invocation inv ->
  run D inv = Some (0, {| stdout := transcript D inv |}).
Proof.
  intros H. unfold run.
  rewrite (main_writes _ _ _ (Invocation_fits _ H)).
  rewrite (Invocation_texts _ H). reflexivity.
Qed.

End Whole.

(** ** Telling the lines apart *)

Section Shapes.

Lemma arg_lines_from_length (i : Z) (inv : list string) :
  List.length (arg_lines_from i inv) = List.length inv.
Proof.
  revert i. induction inv as [|a inv IH]; intros i; simpl;
    [reflexivity | rewrite IH; reflexivity].
Qed.

Lemma arg_lines_from_nth (inv : list string) (i : Z) (n : nat) (a : string) :
  nth_error inv n = Some a ->
  nth_error (arg_lines_from i inv) n = Some (arg_line (i + Z.of_nat n) a).
Proof.
  revert i n. induction inv as [|b inv IH]; intros i n H.
  - destruct n; discriminate.
  - destruct n as [|n]; simpl in *.
    + injection H as ->. rewrite Z.add_0_r. reflexivity.
    + rewrite (IH (i + 1) n H). f_equal. f_equal. lia.
Qed.

Lemma arg_line_bracketed (i : Z) (a : string) :
  String.prefix "  [" (arg_line i a) = true.
Proof. unfold arg_line. simpl. destruct (dec i ++ _); reflexivity. Qed.

(** Only the argument lines begin with two spaces and a bracket. *)
Lemma arg_lines_from_bracketed (i : Z) (inv : list string) :
  filter (String.prefix "  [") (arg_lines_from i inv) = arg_lines_from i inv.
Proof.
  revert i. induction inv as [|a inv IH]; intros i; cbn [arg_lines_from filter];
    [reflexivity | rewrite arg_line_bracketed, IH; reflexivity].
Qed.

Lemma mode_lines_unbracketed (D : defines) :
  filter (String.prefix "  [") (mode_lines D) = [].
Proof. destruct D as [[|] [|]]; reflexivity. Qed.

Lemma count_line_counted (n : Z) :
  String.prefix "Arguments: " (count_line n) = true.
Proof. unfold count_line. simpl. destruct (dec n ++ _); reflexivity. Qed.

Lemma count_line_unbracketed (n : Z) :
  String.prefix "  [" (count_line n) = false.
Proof. reflexivity. Qed.

Lemma arg_lines_from_uncounted (i : Z) (inv : list string) :
  filter (String.prefix "Arguments: ") (arg_lines_from i inv) = [].
Proof.
  revert i. induction inv as [|a inv IH]; intros i; simpl;
    [reflexivity | apply IH].
Qed.

Lemma mode_lines_uncounted (D : defines) :
  filter (String.prefix "Arguments: ") (mode_lines D) = [].
Proof. destruct D as [[|] [|]]; reflexivity. Qed.

Lemma arg_lines_from_not_debug (i : Z) (inv : list string) :
  ~ In debug_line (arg_lines_from i inv).
Proof.
  revert i. induction inv as [|a inv IH]; intros i; simpl.
  - tauto.
  - intros [H|H]; [discriminate H | exact (IH _ H)].
Qed.

Lemma arg_lines_from_not_release (i : Z) (inv : list string) :
  ~ In release_line (arg_lines_from i inv).
Proof.
  revert i. induction inv as [|a inv IH]; intros i; simpl.
  - tauto.
  - intros [H|H]; [discriminate H | exact (IH _ H)].
Qed.

(** Before the mode lines nothing equals one of them. *)
Lemma head_not_mode (n : Z) (inv : list string) :
  ~ In debug_line ([greeting_line; count_line n] ++ arg_lines inv)
  /\ ~ In release_line ([greeting_line; count_line n] ++ arg_lines inv).
Proof.
  split; simpl; intros [H|[H|H]]; try discriminate H.
  - exact (arg_lines_from_not_debug _ _ H).
  - exact (arg_lines_from_not_release _ _ H).
Qed.

Lemma debug_gated (D : defines) (inv : list string) :
  In debug_line (transcript D inv) <-> DEBUG D = true.
Proof.
  unfold transcript. rewrite app_assoc, in_app_iff.
  destruct (head_not_mode (Z.of_nat (List.length inv)) inv) as [Hd _].
  destruct D as [[|] [|]]; simpl mode_lines; simpl DEBUG; split;
    intros H; try reflexivity; try discriminate H.
  - right. left. reflexivity.
  - right. left. reflexivity.
  - destruct H as [H|[H|[]]]; [contradiction | discriminate H].
  - destruct H as [H|[]]; contradiction.
Qed.

Lemma release_gated (D : defines) (inv : list string) :
  In release_line (transcript D inv) <-> NDEBUG D = true.
Proof.
  unfold transcript. rewrite app_assoc, in_app_iff.
  destruct (head_not_mode (Z.of_nat (List.length inv)) inv) as [_ Hr].
  destruct D as [[|] [|]]; simpl mode_lines; simpl NDEBUG; split;
    intros H; try reflexivity; try discriminate H.
  - right. right. left. reflexivity.
  - destruct H as [H|[H|[]]]; [contradiction | discriminate H].
  - right. left. reflexivity.
  - destruct H as [H|[]]; contradiction.
Qed.

End Shapes.

(** ** What a reader of standard output sees

    The properties below speak of the lines the program writes, one per
    [printf] call.  When no argument holds a line feed these are the
    lines of the byte stream; an argument that holds one has its line
    spread over several lines of the stream. *)

Section Reader.

Lemma string_app_assoc (a b c : string) : (a ++ b) ++ c = a ++ b ++ c.
Proof.
  induction a as [|x a IH]; simpl; [reflexivity | rewrite IH; reflexivity].
Qed.

Lemma mentions_app (c : ascii) (a b : string) :
  mentions c (a ++ b) = mentions c a || mentions c b.
Proof.
  induction a as [|x a IH]; simpl; [reflexivity|].
  rewrite IH, orb_assoc. reflexivity.
Qed.

Lemma digits_no_LF (d : uint) :
  mentions LF (NilEmpty.string_of_uint d) = false.
Proof. induction d; simpl; auto. Qed.

Lemma dec_no_LF (z : Z) : mentions LF (dec z) = false.
Proof.
  unfold dec.
  destruct (Z.to_int z) as [d|d]; simpl;
    destruct d; simpl; auto using digits_no_LF.
Qed.

(** A written text that is one line of the stream. *)
Definition one_line (r : string) : Prop :=
  exists l, r = l ++ nl /\ mentions LF l = false.

Lemma text_lines_first (l s : string) :
  mentions LF l = false -> text_lines (l ++ nl ++ s) = l :: text_lines s.
Proof.
  change (nl ++ s) with (String LF s).
  induction l as [|c l IH]; simpl; intros H; [reflexivity|].
  apply orb_false_elim in H as [Hc Hl].
  rewrite Hc, (IH Hl). reflexivity.
Qed.

Lemma text_lines_written (rs : list string) :
  Forall one_line rs ->
  map (fun l => l ++ nl) (text_lines (fold_right append EmptyString rs)) = rs.
Proof.
  induction 1 as [|r rs (l & -> & Hl) _ IH]; [reflexivity|].
  cbn [fold_right].
  rewrite string_app_assoc, (text_lines_first _ _ Hl).
  cbn [map]. rewrite IH. reflexivity.
Qed.

Lemma arg_lines_from_one_line (i : Z) (inv : list string) :
  forallb (fun a => negb (mentions LF a)) inv = true ->
  Forall one_line (arg_lines_from i inv).
Proof.
  revert i. induction inv as [|a inv IH]; intros i H; simpl in *.
  - constructor.
  - apply andb_prop in H as [Ha H]. apply negb_true_iff in Ha.
    constructor; [|apply IH, H].
    exists ("  [" ++ dec i ++ "]: " ++ a). split.
    + unfold arg_line. simpl. rewrite !string_app_assoc. reflexivity.
    + simpl. rewrite mentions_app, dec_no_LF. simpl. exact Ha.
Qed.

Lemma transcript_one_line (D : defines) (inv : list string) :
  forallb (fun a => negb (mentions LF a)) inv = true ->
  Forall one_line (transcript D inv).
Proof.
  intros H. unfold transcript.
  apply Forall_app; split; [|apply Forall_app; split].
  - repeat constructor.
    + exists ("Hello from C compiled with zmake! " ++ fire).
      split; reflexivity.
    + exists ("Arguments: " ++ dec (Z.of_nat (List.length inv))). split.
      * unfold count_line. rewrite string_app_assoc. reflexivity.
      * simpl. apply dec_no_LF.
  - apply arg_lines_from_one_line, H.
  - unfold mode_lines. apply Forall_app. split.
    + destruct (DEBUG D); repeat constructor.
      exists "Debug mode enabled". split; reflexivity.
    + destruct (NDEBUG D); repeat constructor.
      exists "Release mode (optimized)". split; reflexivity.
Qed.

(** With no line feed in any argument, the lines of the byte stream
    are the texts the program wrote, one line each. *)
Lemma reader_sees_lines (D : defines) (inv : list string) :
  Invocation inv ->
  forallb (fun a => negb (mentions LF a)) inv = true ->
  exists w,
    run D inv = Some (0, w)
    /\ map (fun l => l ++ nl) (text_lines (stream w)) = stdout w.
Proof.
  intros H Hlf. exists {| stdout := transcript D inv |}.
  split; [apply (run_writes D inv H)|].
  apply text_lines_written, transcript_one_line, Hlf.
Qed.

(** An argument holding a line feed: four texts written, five lines
    read, the line of the argument being cut in two. *)
Remark line_feed_in_argument :
  exists w,
    run {| DEBUG := false; NDEBUG := false |}
        ["prog"; "a" ++ nl ++ "b"] = Some (0, w)
    /\ List.length (stdout w) = 4%nat
    /\ text_lines (stream w)
       = ["Hello from C compiled with zmake! " ++ fire;
          "Arguments: 2"; "  [0]: prog"; "  [1]: a"; "b"].
Proof. eexists. split; [vm_compute; reflexivity|]. split; reflexivity. Qed.

End Reader.

(** ** The properties of the specification *)

Section Properties.

(** C1.  For every invocation the run succeeds and what it has
    written is, in this order and with nothing else: the greeting
    line once, the argument-count line once, the argument lines in
    index order, the debug line if [DEBUG] is defined, the release
    line if [NDEBUG] is defined. *)
Theorem output_order (D : defines) (inv : list string) :
  Invocation inv ->
  exists w,
    run D inv = Some (0, w)
    /\ stdout w
       = ([greeting_line]
          ++ [count_line (Z.of_nat (List.length inv))]
          ++ arg_lines inv
          ++ (if DEBUG D then [debug_line] else [])
          ++ (if NDEBUG D then [release_line] else []))%list.
Proof.
  intros H. eexists. split; [apply (run_writes D inv H) | reflexivity].
Qed.

Lemma output_order_witness :
  Invocation ["prog"; "foo"; "bar"]
  /\ exists w,
       run {| DEBUG := true; NDEBUG := false |} ["prog"; "foo"; "bar"]
       = Some (0, w)
       /\ stdout w
          = [greeting_line; count_line 3;
             arg_line 0 "prog"; arg_line 1 "foo"; arg_line 2 "bar";
             debug_line].
Proof.
  split; [reflexivity|].
  apply (output_order {| DEBUG := true; NDEBUG := false |}
                      ["prog"; "foo"; "bar"]).
  reflexivity.
Defined.

(** C2.  For every invocation [a0 .. aN-1] the output holds exactly
    [N] argument lines: they are the lines between the count line and
    the mode lines, they are all the lines of the output that begin
    as an argument line does, there are [N] of them, and the one at
    position [i] reads two spaces, the index [i] in brackets, a
    colon, a space and the text of [ai]. *)
Theorem argument_lines (D : defines) (inv : list string) :
  Invocation inv ->
  exists w lines,
    run D inv = Some (0, w)
    /\ stdout w
       = ([greeting_line; count_line (Z.of_nat (List.length inv))]
          ++ lines ++ mode_lines D)%list
    /\ filter (String.prefix "  [") (stdout w) = lines
    /\ List.length lines = List.length inv
    /\ forall (i : nat) (a : string),
         nth_error inv i = Some a ->
         nth_error lines i
         = Some ("  [" ++ dec (Z.of_nat i) ++ "]: " ++ a ++ nl).
Proof.
  intros H. exists {| stdout := transcript D inv |}, (arg_lines inv).
  split; [apply (run_writes D inv H)|].
  split; [reflexivity|].
  split.
  - unfold transcript. cbn [stdout].
    rewrite !filter_app. unfold arg_lines.
    rewrite arg_lines_from_bracketed, mode_lines_unbracketed.
    cbn [filter]. rewrite count_line_unbracketed.
    rewrite app_nil_r. reflexivity.
  - split; [apply arg_lines_from_length|].
    intros i a Hi. unfold arg_lines.
    rewrite (arg_lines_from_nth _ 0 _ _ Hi). reflexivity.
Qed.

Lemma argument_lines_witness :
  Invocation ["prog"; "foo"; "bar"]
  /\ exists w lines,
       run {| DEBUG := false; NDEBUG := true |} ["prog"; "foo"; "bar"]
       = Some (0, w)
       /\ stdout w
          = ([greeting_line; count_line 3] ++ lines ++ [release_line])%list
       /\ filter (String.prefix "  [") (stdout w) = lines
       /\ List.length lines = 3%nat
       /\ forall (i : nat) (a : string),
            nth_error ["prog"; "foo"; "bar"] i = Some a ->
            nth_error lines i
            = Some ("  [" ++ dec (Z.of_nat i) ++ "]: " ++ a ++ nl).
Proof.
  split; [reflexivity|].
  apply (argument_lines {| DEBUG := false; NDEBUG := true |}
                        ["prog"; "foo"; "bar"]).
  reflexivity.
Defined.

(** C3.  For every invocation of [N >= 1] elements, the program name
    [prog] followed by the caller's arguments [args], the output has
    a single argument-count line, it is the second line, and the
    number it shows is [N], the program name counted: one more than
    the number of [args]. *)
Theorem count_line_reports (D : defines) (prog : string)
        (args : list string) :
  Invocation (prog :: args) ->
  let N := 1 + Z.of_nat (List.length args) in
  exists w,
    run D (prog :: args) = Some (0, w)
    /\ nth_error (stdout w) 1 = Some ("Arguments: " ++ dec N ++ nl)
    /\ filter (String.prefix "Arguments: ") (stdout w)
       = ["Arguments: " ++ dec N ++ nl]
    /\ undec (dec N) = Some N.
Proof.
  intros H N. exists {| stdout := transcript D (prog :: args) |}.
  split; [apply (run_writes D _ H)|].
  assert (HN : Z.of_nat (List.length (prog :: args)) = N)
    by (unfold N; simpl List.length; lia).
  unfold transcript. rewrite HN. cbn [stdout].
  split; [reflexivity|].
  split; [|apply dec_undec].
  rewrite !filter_app. unfold arg_lines.
  rewrite arg_lines_from_uncounted, mode_lines_uncounted.
  cbn [filter]. rewrite count_line_counted. reflexivity.
Qed.

Lemma count_line_reports_witness :
  Invocation ["prog"; "foo"; "bar"]
  /\ exists w,
       run {| DEBUG := false; NDEBUG := false |} ["prog"; "foo"; "bar"]
       = Some (0, w)
       /\ nth_error (stdout w) 1 = Some ("Arguments: " ++ dec 3 ++ nl)
       /\ filter (String.prefix "Arguments: ") (stdout w)
          = ["Arguments: " ++ dec 3 ++ nl]
       /\ undec (dec 3) = Some 3.
Proof.
  split; [reflexivity|].
  apply (count_line_reports {| DEBUG := false; NDEBUG := false |}
                            "prog" ["foo"; "bar"]).
  reflexivity.
Defined.

(** C4.  For every invocation the two mode lines are gated by their
    symbols and by nothing else: the debug line is in the output
    exactly when [DEBUG] is defined, the release line exactly when
    [NDEBUG] is defined, and with neither defined the output has
    neither line. *)
Theorem mode_lines_gated (D : defines) (inv : list string) :
  Invocation inv ->
  exists w,
    run D inv = Some (0, w)
    /\ (In debug_line (stdout w) <-> DEBUG D = true)
    /\ (In release_line (stdout w) <-> NDEBUG D = true)
    /\ (DEBUG D = false -> NDEBUG D = false ->
        ~ In debug_line (stdout w) /\ ~ In release_line (stdout w)).
Proof.
  intros H. exists {| stdout := transcript D inv |}.
  split; [apply (run_writes D inv H)|]. cbn [stdout].
  pose proof (debug_gated D inv) as Hd.
  pose proof (release_gated D inv) as Hr.
  repeat split; try apply Hd; try apply Hr.
  - intros Hin. apply Hd in Hin. congruence.
  - intros Hin. apply Hr in Hin. congruence.
Qed.

Lemma mode_lines_gated_witness :
  Invocation ["prog"; "Debug mode enabled"]
  /\ exists w,
       run {| DEBUG := false; NDEBUG := true |}
           ["prog"; "Debug mode enabled"]
       = Some (0, w)
       /\ (In debug_line (stdout w) <-> false = true)
       /\ (In release_line (stdout w) <-> true = true)
       /\ (false = false -> true = false ->
           ~ In debug_line (stdout w) /\ ~ In release_line (stdout w)).
Proof.
  split; [reflexivity|].
  apply (mode_lines_gated {| DEBUG := false; NDEBUG := true |}
                          ["prog"; "Debug mode enabled"]).
  reflexivity.
Defined.

(** C5.  For every invocation the program terminates and returns the
    success status: the run is defined (the loop is a total function,
    and nothing undefined is met on the way) and its value is 0. *)
Theorem always_succeeds (D : defines) (inv : list string) :
  Invocation inv ->
  exists w, run D inv = Some (EXIT_SUCCESS, w).
Proof.
  intros H. eexists. apply (run_writes D inv H).
Qed.

Lemma always_succeeds_witness :
  Invocation ["prog"; ""; "--"; "a b"]
  /\ exists w,
       run {| DEBUG := true; NDEBUG := true |} ["prog"; ""; "--"; "a b"]
       = Some (EXIT_SUCCESS, w).
Proof.
  split; [reflexivity|].
  apply (always_succeeds {| DEBUG := true; NDEBUG := true |}
                         ["prog"; ""; "--"; "a b"]).
  reflexivity.
Defined.

(** C6.  The invocation ["prog"]: the output is the greeting line,
    then "Arguments: 1", then "  [0]: prog", then the mode lines of
    the build and nothing else. *)
Theorem scenario_prog (D : defines) :
  run D ["prog"]
  = Some (0, {| stdout :=
                 (["Hello from C compiled with zmake! " ++ fire ++ nl;
                   "Arguments: 1" ++ nl;
                   "  [0]: prog" ++ nl]%string
                  ++ (if DEBUG D then ["Debug mode enabled" ++ nl]%string
                      else [])
                  ++ (if NDEBUG D
                      then ["Release mode (optimized)" ++ nl]%string
                      else []))%list |}).
Proof. destruct D as [[|] [|]]; vm_compute; reflexivity. Qed.

(** C7.  With both [DEBUG] and [NDEBUG] defined the two mode lines do
    not exclude each other: for every invocation the output has the
    debug line and has the release line. *)
Theorem both_modes_both_lines (D : defines) (inv : list string) :
  DEBUG D = true -> NDEBUG D = true ->
  Invocation inv ->
  exists w,
    run D inv = Some (0, w)
    /\ In debug_line (stdout w)
    /\ In release_line (stdout w).
Proof.
  intros Hd Hr H. exists {| stdout := transcript D inv |}.
  split; [apply (run_writes D inv H)|]. cbn [stdout].
  split; [apply debug_gated | apply release_gated]; assumption.
Qed.

Lemma both_modes_both_lines_witness :
  exists w,
    run {| DEBUG := true; NDEBUG := true |} ["prog"; "foo"] = Some (0, w)
    /\ In debug_line (stdout w)
    /\ In release_line (stdout w).
Proof.
  apply (both_modes_both_lines {| DEBUG := true; NDEBUG := true |}
                               ["prog"; "foo"]); reflexivity.
Defined.

(** C8.  The output and the exit status are a function of the
    invocation and the two symbols only: two runs of the same build
    on the same invocation, whatever had been written to standard
    output before each, return the same status and write the same
    lines. *)
Theorem deterministic (D : defines) (inv : list string) (w1 w2 : world) :
  Invocation inv ->
  exists (status : Z) (lines : list string),
    main D (Z.of_nat (List.length inv)) inv w1
    = Some (status, {| stdout := stdout w1 ++ lines |}%list)
    /\ main D (Z.of_nat (List.length inv)) inv w2
       = Some (status, {| stdout := stdout w2 ++ lines |}%list).
Proof.
  intros H. exists 0, (transcript D (map c_text inv)).
  split; apply main_writes, Invocation_fits, H.
Qed.

Lemma deterministic_witness :
  exists (status : Z) (lines : list string),
    main {| DEBUG := true; NDEBUG := false |} 2 ["prog"; "x"] start
    = Some (status, {| stdout := lines |})
    /\ main {| DEBUG := true; NDEBUG := false |} 2 ["prog"; "x"]
            {| stdout := ["earlier" ++ nl] |}
       = Some (status, {| stdout := ("earlier" ++ nl) :: lines |}).
Proof.
  apply (deterministic {| DEBUG := true; NDEBUG := false |} ["prog"; "x"]
                       start {| stdout := ["earlier" ++ nl] |}).
  reflexivity.
Defined.

(** C9.  The empty invocation: the run still succeeds and writes the
    greeting line, a count line showing 0, no argument line and the
    mode lines of the build; and with a count of 0 [main] returns
    that same result whatever [argv] holds, so no element is read. *)
Theorem empty_invocation (D : defines) :
  run D []
  = Some (0, {| stdout := ([greeting_line; "Arguments: 0" ++ nl]%string
                           ++ mode_lines D)%list |})
  /\ forall argv : list string, main D 0 argv start = run D [].
Proof.
  split.
  - destruct D as [[|] [|]]; vm_compute; reflexivity.
  - intros argv. unfold run, main. cbn [List.length Z.of_nat].
    unfold bind at 1 5.
    rewrite (printf_writes _ _ _ _ format_greeting).
    unfold bind at 1 4.
    rewrite (printf_writes _ _ _ _ (format_count _)).
    unfold bind at 1 3.
    rewrite !for_loop_exit by lia. reflexivity.
Qed.

(** C10.  With both [DEBUG] and [NDEBUG] defined the debug line is
    written immediately before the release line, the two end the
    output, and neither occurs earlier: the release line never comes
    before the debug line. *)
Theorem debug_before_release (D : defines) (inv : list string) :
  DEBUG D = true -> NDEBUG D = true ->
  Invocation inv ->
  exists w before,
    run D inv = Some (0, w)
    /\ stdout w = (before ++ [debug_line; release_line])%list
    /\ ~ In release_line before
    /\ ~ In debug_line before.
Proof.
  intros Hd Hr H.
  exists {| stdout := transcript D inv |},
         ([greeting_line; count_line (Z.of_nat (List.length inv))]
          ++ arg_lines inv)%list.
  split; [apply (run_writes D inv H)|].
  destruct (head_not_mode (Z.of_nat (List.length inv)) inv) as [Nd Nr].
  split; [|split; assumption].
  cbn [stdout]. unfold transcript, mode_lines. rewrite Hd, Hr.
  rewrite <- app_assoc. reflexivity.
Qed.

Lemma debug_before_release_witness :
  exists w before,
    run {| DEBUG := true; NDEBUG := true |} ["prog"; "foo"] = Some (0, w)
    /\ stdout w = (before ++ [debug_line; release_line])%list
    /\ ~ In release_line before
    /\ ~ In debug_line before.
Proof.
  apply (debug_before_release {| DEBUG := true; NDEBUG := true |}
                              ["prog"; "foo"]); reflexivity.
Defined.

End Properties.

(** ** The count and the array

    [main] takes the bound of its loop from [argc] alone.  What it does
    when the count is not the number of strings in [argv] follows. *)

Section Bounds.

(** The loop run up to a count that stops short of the end of
    [argv]. *)
Lemma for_loop_stops (todo done rest : list string) (w : world) :
  Z.of_nat (List.length (done ++ todo)) <= INT_MAX ->
  for_loop (Z.of_nat (List.length (done ++ todo)))
           ((done ++ todo) ++ rest) (Z.of_nat (List.length done)) w
  = Some (tt, {| stdout := (stdout w
                            ++ arg_lines_from (Z.of_nat (List.length done))
                                              (map c_text todo))%list |}).
Proof.
  revert done w.
  induction todo as [|a todo IH]; intros done w Hmax.
  - rewrite for_loop_exit by (rewrite app_nil_r; lia).
    simpl. rewrite app_nil_r. destruct w; reflexivity.
  - rewrite for_loop_step.
    assert (Hlen : List.length (done ++ a :: todo)
                   = S (List.length done + List.length todo))
      by (rewrite length_app; simpl; lia).
    assert (Hb : (Z.of_nat (List.length done)
                  <? Z.of_nat (List.length (done ++ a :: todo))) = true)
      by (apply Z.ltb_lt; lia).
    rewrite Hb. unfold bind at 1.
    rewrite (loop_body_writes _ _ a).
    2:{ rewrite <- !app_assoc. rewrite nth_error_app2 by lia.
        rewrite Nat.sub_diag. reflexivity. }
    assert (Hi : (Z.of_nat (List.length done) <? INT_MAX) = true)
      by (apply Z.ltb_lt; lia).
    rewrite Hi.
    assert (Hsplit : (done ++ a :: todo = (done ++ [a]) ++ todo)%list)
      by (rewrite <- app_assoc; reflexivity).
    rewrite Hsplit in *.
    replace (Z.of_nat (List.length done) + 1)
      with (Z.of_nat (List.length (done ++ [a])))
      by (rewrite length_app; simpl; lia).
    rewrite IH by exact Hmax.
    cbn [stdout]. rewrite <- app_assoc. simpl.
    replace (Z.of_nat (List.length (done ++ [a])))
      with (Z.of_nat (List.length done) + 1)
      by (rewrite length_app; simpl; lia).
    reflexivity.
Qed.

(** The loop run to a count beyond the end of [argv]: it reads the
    slot after the last string, or overflows [i] on the way. *)
Lemma for_loop_overruns (argc : Z) (todo done : list string) (w : world) :
  Z.of_nat (List.length (done ++ todo)) < argc ->
  for_loop argc (done ++ todo) (Z.of_nat (List.length done)) w = None.
Proof.
  revert done w.
  induction todo as [|a todo IH]; intros done w Hover.
  - rewrite app_nil_r in *. rewrite for_loop_step.
    assert (Hb : (Z.of_nat (List.length done) <? argc) = true)
      by (apply Z.ltb_lt; lia).
    rewrite Hb. unfold bind at 1, loop_body, bind at 1, argv_at.
    destruct (Z.of_nat (List.length done) <? 0); [reflexivity|].
    rewrite Nat2Z.id.
    assert (Hn : nth_error done (List.length done) = None)
      by (apply nth_error_None; lia).
    rewrite Hn. reflexivity.
  - rewrite for_loop_step.
    assert (Hlen : List.length (done ++ a :: todo)
                   = S (List.length done + List.length todo))
      by (rewrite length_app; simpl; lia).
    assert (Hb : (Z.of_nat (List.length done) <? argc) = true)
      by (apply Z.ltb_lt; lia).
    rewrite Hb. unfold bind at 1.
    rewrite (loop_body_writes _ _ a)
      by (rewrite nth_error_app2 by lia; rewrite Nat.sub_diag; reflexivity).
    destruct (Z.of_nat (List.length done) <? INT_MAX); [|reflexivity].
    assert (Hsplit : (done ++ a :: todo = (done ++ [a]) ++ todo)%list)
      by (rewrite <- app_assoc; reflexivity).
    rewrite Hsplit in *.
    replace (Z.of_nat (List.length done) + 1)
      with (Z.of_nat (List.length (done ++ [a])))
      by (rewrite length_app; simpl; lia).
    apply IH. exact Hover.
Qed.

(** X1.  Strings of [argv] from index [argc] on are neither read nor
    written: called with the count of the invocation [shown] and an
    array that holds further strings [rest] after it, [main] does
    exactly what it does on [shown] alone. *)
Theorem count_bounds_the_listing (D : defines) (shown rest : list string) :
  Invocation shown ->
  main D (Z.of_nat (List.length shown)) (shown ++ rest) start
  = run D shown.
Proof.
  intros H. rewrite (run_writes D shown H).
  pose proof (Invocation_fits _ H) as Hmax. unfold main.
  unfold bind at 1.
  rewrite (printf_writes _ _ _ _ format_greeting).
  unfold bind at 1.
  rewrite (printf_writes _ _ _ _ (format_count _)).
  unfold bind at 1.
  rewrite (for_loop_stops shown [] rest _ Hmax).
  unfold bind at 1. rewrite mode_debug_writes.
  unfold bind at 1. rewrite mode_release_writes.
  rewrite (Invocation_texts _ H).
  unfold ret, transcript, arg_lines, mode_lines. cbn [stdout start].
  repeat rewrite <- app_assoc. reflexivity.
Qed.

Lemma count_bounds_the_listing_witness :
  Invocation ["prog"; "foo"]
  /\ main {| DEBUG := true; NDEBUG := false |} 2
          ["prog"; "foo"; "bar"; "baz"] start
     = run {| DEBUG := true; NDEBUG := false |} ["prog"; "foo"].
Proof.
  split; [reflexivity|].
  apply (count_bounds_the_listing {| DEBUG := true; NDEBUG := false |}
                                  ["prog"; "foo"] ["bar"; "baz"]).
  reflexivity.
Defined.

(** X2.  A count of zero or below: [main] still returns 0, writes the
    greeting, the count as given (a negative one with its sign) and
    the mode lines, writes no argument line and reads nothing of
    [argv], whatever it holds. *)
Theorem nonpositive_count (D : defines) (argc : Z) (argv : list string)
        (w : world) :
  argc <= 0 ->
  main D argc argv w
  = Some (0, {| stdout := (stdout w
                           ++ [greeting_line;
                               "Arguments: " ++ dec argc ++ nl]%string
                           ++ mode_lines D)%list |}).
Proof.
  intros H. unfold main.
  unfold bind at 1.
  rewrite (printf_writes _ _ _ _ format_greeting).
  unfold bind at 1.
  rewrite (printf_writes _ _ _ _ (format_count _)).
  unfold bind at 1.
  rewrite for_loop_exit by lia.
  unfold bind at 1. rewrite mode_debug_writes.
  unfold bind at 1. rewrite mode_release_writes.
  unfold ret, mode_lines, count_line. cbn [stdout].
  repeat rewrite <- app_assoc. reflexivity.
Qed.

Lemma nonpositive_count_witness :
  main {| DEBUG := false; NDEBUG := true |} (-3) ["prog"; "foo"] start
  = Some (0, {| stdout := [greeting_line; "Arguments: -3" ++ nl;
                           release_line] |}).
Proof.
  apply (nonpositive_count {| DEBUG := false; NDEBUG := true |} (-3)
                           ["prog"; "foo"] start).
  vm_compute. discriminate.
Defined.

(** X3.  A count above the number of strings in [argv]: the loop goes
    on past the last string, so the call is undefined, for every build
    and whatever the strings are. *)
Theorem count_beyond_array (D : defines) (argc : Z) (argv : list string)
        (w : world) :
  Z.of_nat (List.length argv) < argc ->
  main D argc argv w = None.
Proof.
  intros H. unfold main.
  unfold bind at 1.
  rewrite (printf_writes _ _ _ _ format_greeting).
  unfold bind at 1.
  rewrite (printf_writes _ _ _ _ (format_count _)).
  unfold bind at 1.
  rewrite (for_loop_overruns argc argv [] _ H). reflexivity.
Qed.

Lemma count_beyond_array_witness :
  main {| DEBUG := false; NDEBUG := false |} 3 ["prog"; "foo"] start = None.
Proof.
  apply (count_beyond_array {| DEBUG := false; NDEBUG := false |} 3
                            ["prog"; "foo"] start).
  vm_compute. reflexivity.
Defined.

End Bounds.

(** ** Reading the invocation back from the output

    [main] echoes each argument as it is, with no quoting.  The texts
    it writes determine the invocation; the byte stream does so only as
    long as no argument holds a line feed. *)

Section Echo.

Lemma string_app_inv_head (a b c : string) : a ++ b = a ++ c -> b = c.
Proof.
  induction a as [|x a IH]; simpl; intros H; [exact H|].
  injection H as H. exact (IH H).
Qed.

Lemma string_app_nl_inv (a b : string) : a ++ nl = b ++ nl -> a = b.
Proof.
  revert b. induction a as [|x a IH]; intros [|y b] H; simpl in H.
  - reflexivity.
  - injection H as _ H. destruct b; discriminate H.
  - injection H as _ H. destruct a; discriminate H.
  - injection H as -> H. rewrite (IH _ H). reflexivity.
Qed.

Lemma count_line_inj (n m : Z) : count_line n = count_line m -> n = m.
Proof.
  unfold count_line. intros H.
  apply string_app_inv_head in H.
  apply string_app_nl_inv in H. exact (dec_inj _ _ H).
Qed.

Lemma arg_line_inj (i : Z) (a b : string) :
  arg_line i a = arg_line i b -> a = b.
Proof.
  unfold arg_line. intros H.
  repeat apply string_app_inv_head in H.
  exact (string_app_nl_inv _ _ H).
Qed.

Lemma arg_lines_from_inj (i : Z) (l1 l2 : list string) :
  arg_lines_from i l1 = arg_lines_from i l2 -> l1 = l2.
Proof.
  revert i l2. induction l1 as [|a l1 IH]; intros i [|b l2] H;
    cbn [arg_lines_from] in H; try discriminate H; [reflexivity|].
  pose proof (f_equal (hd EmptyString) H) as Ha.
  pose proof (f_equal (@tl string) H) as Ht.
  cbn [hd tl] in Ha, Ht.
  rewrite (arg_line_inj _ _ _ Ha), (IH _ _ Ht). reflexivity.
Qed.

Lemma app_same_length_inv {A : Type} (l1 l2 r1 r2 : list A) :
  List.length l1 = List.length l2 ->
  (l1 ++ r1 = l2 ++ r2)%list -> l1 = l2 /\ r1 = r2.
Proof.
  revert l2. induction l1 as [|x l1 IH]; intros [|y l2] Hlen H;
    simpl in *; try discriminate Hlen.
  - split; [reflexivity | exact H].
  - injection Hlen as Hlen. injection H as -> H.
    destruct (IH _ Hlen H) as [-> ->]. split; reflexivity.
Qed.

Lemma mode_lines_inj (D1 D2 : defines) :
  mode_lines D1 = mode_lines D2 -> D1 = D2.
Proof.
  destruct D1 as [[|] [|]], D2 as [[|] [|]]; intros H;
    try reflexivity; discriminate H.
Qed.

(** What is written tells the build and the invocation. *)
Lemma transcript_inj (D1 D2 : defines) (inv1 inv2 : list string) :
  transcript D1 inv1 = transcript D2 inv2 -> D1 = D2 /\ inv1 = inv2.
Proof.
  unfold transcript. intros H.
  pose proof (f_equal (fun l => nth 1 l EmptyString) H) as Hc.
  apply (f_equal (skipn 2)) in H.
  cbn [app nth skipn] in Hc, H.
  apply count_line_inj, Nat2Z.inj in Hc.
  apply app_same_length_inv in H as [Ha Hm].
  - split; [exact (mode_lines_inj _ _ Hm)|].
    exact (arg_lines_from_inj _ _ _ Ha).
  - unfold arg_lines. rewrite !arg_lines_from_length. exact Hc.
Qed.

(** X4.  The echo loses nothing: two runs that wrote the same texts
    were runs of the same build on the same invocation. *)
Theorem output_tells_invocation (D1 D2 : defines) (inv1 inv2 : list string)
        (s1 s2 : Z) (w1 w2 : world) :
  Invocation inv1 -> Invocation inv2 ->
  run D1 inv1 = Some (s1, w1) ->
  run D2 inv2 = Some (s2, w2) ->
  stdout w1 = stdout w2 ->
  D1 = D2 /\ inv1 = inv2.
Proof.
  intros H1 H2 R1 R2 Hout.
  rewrite (run_writes _ _ H1) in R1. rewrite (run_writes _ _ H2) in R2.
  injection R1 as _ <-. injection R2 as _ <-.
  exact (transcript_inj _ _ _ _ Hout).
Qed.

Lemma output_tells_invocation_witness :
  {| DEBUG := true; NDEBUG := false |} = {| DEBUG := true; NDEBUG := false |}
  /\ ["prog"; "foo"] = ["prog"; "foo"].
Proof.
  apply (output_tells_invocation
           {| DEBUG := true; NDEBUG := false |}
           {| DEBUG := true; NDEBUG := false |}
           ["prog"; "foo"] ["prog"; "foo"] 0 0
           {| stdout := [greeting_line; count_line 2; arg_line 0 "prog";
                         arg_line 1 "foo"; debug_line] |}
           {| stdout := [greeting_line; count_line 2; arg_line 0 "prog";
                         arg_line 1 "foo"; debug_line] |});
    vm_compute; reflexivity.
Defined.

End Echo.

(** ** The byte stream *)

Section Stream.

Lemma text_lines_count (s : string) :
  List.length (text_lines s) = occurrences LF s.
Proof.
  induction s as [|c r IH]; simpl; [reflexivity|].
  destruct (Ascii.eqb c LF); simpl; [rewrite IH; reflexivity|].
  rewrite <- IH. destruct (text_lines r); reflexivity.
Qed.

Lemma occurrences_app (c : ascii) (a b : string) :
  occurrences c (a ++ b) = (occurrences c a + occurrences c b)%nat.
Proof.
  induction a as [|x a IH]; simpl; [reflexivity|].
  rewrite IH. lia.
Qed.

Lemma occurrences_none (c : ascii) (s : string) :
  mentions c s = false -> occurrences c s = O.
Proof.
  induction s as [|x s IH]; simpl; [reflexivity|].
  intros H. apply orb_false_elim in H as [Hx Hs].
  rewrite Hx, (IH Hs). reflexivity.
Qed.

Lemma occurrences_written (c : ascii) (rs : list string) :
  occurrences c (fold_right append EmptyString rs)
  = list_sum (map (occurrences c) rs).
Proof.
  induction rs as [|r rs IH]; simpl; [reflexivity|].
  rewrite occurrences_app, IH. reflexivity.
Qed.

Lemma count_line_feeds (n : Z) : occurrences LF (count_line n) = 1%nat.
Proof.
  unfold count_line. rewrite !occurrences_app.
  rewrite (occurrences_none _ _ (dec_no_LF n)). reflexivity.
Qed.

Lemma arg_line_feeds (i : Z) (a : string) :
  occurrences LF (arg_line i a) = S (occurrences LF a).
Proof.
  unfold arg_line. rewrite !occurrences_app.
  rewrite (occurrences_none _ _ (dec_no_LF i)). simpl. lia.
Qed.

Lemma arg_lines_feeds (i : Z) (inv : list string) :
  list_sum (map (occurrences LF) (arg_lines_from i inv))
  = (List.length inv + line_feeds inv)%nat.
Proof.
  revert i. unfold line_feeds.
  induction inv as [|a inv IH]; intros i; [reflexivity|].
  change (occurrences LF (arg_line i a)
          + list_sum (map (occurrences LF) (arg_lines_from (i + 1) inv))
          = S (List.length inv)
            + (occurrences LF a + list_sum (map (occurrences LF) inv)))%nat.
  rewrite arg_line_feeds, IH. lia.
Qed.

Lemma mode_lines_feeds (D : defines) :
  list_sum (map (occurrences LF) (mode_lines D)) = List.length (mode_lines D).
Proof. destruct D as [[|] [|]]; reflexivity. Qed.

(** A written text that ends a line. *)
Definition ends_line (r : string) : Prop := exists x, r = x ++ nl.

Lemma unlines_first (x s : string) :
  unlines (text_lines s) = s ->
  unlines (text_lines (x ++ nl ++ s)) = x ++ nl ++ s.
Proof.
  intros Hs. change (nl ++ s) with (String LF s).
  induction x as [|c x IH]; cbn [append text_lines].
  - rewrite Ascii.eqb_refl. cbn [unlines fold_right].
    fold (unlines (text_lines s)). rewrite Hs. reflexivity.
  - destruct (Ascii.eqb_spec c LF) as [->|Hc].
    + cbn [unlines fold_right].
      fold (unlines (text_lines (x ++ String LF s))).
      rewrite IH. reflexivity.
    + destruct (text_lines (x ++ String LF s)) as [|l ls].
      * destruct x; discriminate IH.
      * cbn [unlines fold_right] in *.
        fold (unlines ls) in *. simpl. simpl in IH.
        rewrite IH. reflexivity.
Qed.

Lemma unlines_written (rs : list string) :
  Forall ends_line rs ->
  unlines (text_lines (fold_right append EmptyString rs))
  = fold_right append EmptyString rs.
Proof.
  induction 1 as [|r rs (x & ->) _ IH]; [reflexivity|].
  cbn [fold_right]. rewrite string_app_assoc.
  apply unlines_first, IH.
Qed.

Lemma arg_lines_from_end_line (i : Z) (inv : list string) :
  Forall ends_line (arg_lines_from i inv).
Proof.
  revert i. induction inv as [|a inv IH]; intros i; simpl; constructor;
    [|apply IH].
  exists ("  [" ++ dec i ++ "]: " ++ a).
  unfold arg_line. simpl. rewrite !string_app_assoc. reflexivity.
Qed.

Lemma transcript_ends_lines (D : defines) (inv : list string) :
  Forall ends_line (transcript D inv).
Proof.
  unfold transcript.
  apply Forall_app; split; [|apply Forall_app; split].
  - repeat constructor.
    + exists ("Hello from C compiled with zmake! " ++ fire). reflexivity.
    + exists ("Arguments: " ++ dec (Z.of_nat (List.length inv))).
      unfold count_line. rewrite string_app_assoc. reflexivity.
  - apply arg_lines_from_end_line.
  - unfold mode_lines. apply Forall_app. split.
    + destruct (DEBUG D); repeat constructor.
      exists "Debug mode enabled". reflexivity.
    + destruct (NDEBUG D); repeat constructor.
      exists "Release mode (optimized)". reflexivity.
Qed.

Lemma reader_sees_lines_witness :
  exists w,
    run {| DEBUG := true; NDEBUG := true |} ["prog"; "foo bar"] = Some (0, w)
    /\ map (fun l => l ++ nl) (text_lines (stream w)) = stdout w.
Proof.
  apply (reader_sees_lines {| DEBUG := true; NDEBUG := true |}
                           ["prog"; "foo bar"]); reflexivity.
Defined.

(** X6.  The program writes two texts, one per argument and one per
    defined symbol, and the byte stream has one line for each of them
    and one more for every line feed held by an argument. *)
Theorem stream_line_count (D : defines) (inv : list string) :
  Invocation inv ->
  exists w,
    run D inv = Some (0, w)
    /\ List.length (stdout w)
       = (2 + List.length inv + List.length (mode_lines D))%nat
    /\ List.length (text_lines (stream w))
       = (List.length (stdout w) + line_feeds inv)%nat.
Proof.
  intros H. exists {| stdout := transcript D inv |}.
  split; [apply (run_writes D inv H)|].
  unfold stream. cbn [stdout].
  assert (Hlen : List.length (transcript D inv)
                 = (2 + List.length inv + List.length (mode_lines D))%nat).
  { unfold transcript, arg_lines.
    rewrite !length_app, arg_lines_from_length. simpl. lia. }
  split; [exact Hlen|].
  rewrite text_lines_count, occurrences_written, Hlen.
  unfold transcript, arg_lines.
  rewrite !map_app, !list_sum_app, arg_lines_feeds, mode_lines_feeds.
  cbn [map]. change (list_sum [?x; ?y]) with (x + (y + 0))%nat.
  rewrite count_line_feeds.
  change (occurrences LF greeting_line) with 1%nat. lia.
Qed.

Lemma stream_line_count_witness :
  exists w,
    run {| DEBUG := true; NDEBUG := false |}
        ["prog"; "a" ++ nl ++ "b" ++ nl; "c"] = Some (0, w)
    /\ List.length (stdout w) = 6%nat
    /\ List.length (text_lines (stream w))
       = (List.length (stdout w) + 2)%nat.
Proof.
  apply (stream_line_count {| DEBUG := true; NDEBUG := false |}
                           ["prog"; "a" ++ nl ++ "b" ++ nl; "c"]).
  reflexivity.
Defined.

(** X7.  As long as no argument holds a line feed the byte stream
    alone tells the build and the invocation: two such runs with the
    same stream were runs of the same build on the same invocation. *)
Theorem stream_tells_invocation (D1 D2 : defines) (inv1 inv2 : list string)
        (s1 s2 : Z) (w1 w2 : world) :
  Invocation inv1 -> Invocation inv2 ->
  line_free inv1 = true -> line_free inv2 = true ->
  run D1 inv1 = Some (s1, w1) ->
  run D2 inv2 = Some (s2, w2) ->
  stream w1 = stream w2 ->
  D1 = D2 /\ inv1 = inv2.
Proof.
  intros H1 H2 F1 F2 R1 R2 Hs.
  rewrite (run_writes _ _ H1) in R1. rewrite (run_writes _ _ H2) in R2.
  injection R1 as _ <-. injection R2 as _ <-.
  apply transcript_inj.
  rewrite <- (text_lines_written _ (transcript_one_line D1 inv1 F1)).
  rewrite <- (text_lines_written _ (transcript_one_line D2 inv2 F2)).
  unfold stream in Hs. cbn [stdout] in Hs. rewrite Hs. reflexivity.
Qed.

Lemma stream_tells_invocation_witness :
  {| DEBUG := false; NDEBUG := true |} = {| DEBUG := false; NDEBUG := true |}
  /\ ["prog"; "foo"] = ["prog"; "foo"].
Proof.
  apply (stream_tells_invocation
           {| DEBUG := false; NDEBUG := true |}
           {| DEBUG := false; NDEBUG := true |}
           ["prog"; "foo"] ["prog"; "foo"] 0 0
           {| stdout := [greeting_line; count_line 2; arg_line 0 "prog";
                         arg_line 1 "foo"; release_line] |}
           {| stdout := [greeting_line; count_line 2; arg_line 0 "prog";
                         arg_line 1 "foo"; release_line] |});
    vm_compute; reflexivity.
Defined.

(** X8.  With line feeds in the arguments the byte stream no longer
    tells the invocation: in every build there are two different
    invocations whose runs give the same stream. *)
Theorem stream_ambiguous (D : defines) :
  exists (inv1 inv2 : list string) (w1 w2 : world),
    Invocation inv1 /\ Invocation inv2
    /\ inv1 <> inv2
    /\ run D inv1 = Some (0, w1)
    /\ run D inv2 = Some (0, w2)
    /\ stream w1 = stream w2.
Proof.
  exists ["prog"; "a" ++ nl ++ "  [2]: b"; "c"],
         ["prog"; "a"; "b" ++ nl ++ "  [2]: c"].
  eexists. eexists.
  split; [reflexivity|]. split; [reflexivity|].
  split; [discriminate|].
  split; [apply run_writes; reflexivity|].
  split; [apply run_writes; reflexivity|].
  destruct D as [[|] [|]]; reflexivity.
Qed.

(** X9.  Every text the program writes ends in a line feed, so the
    byte stream is a whole number of lines whatever the arguments hold:
    cut into lines and joined again, each line with its line feed, it
    is the stream itself. *)
Theorem stream_whole_lines (D : defines) (inv : list string) :
  Invocation inv ->
  exists w,
    run D inv = Some (0, w)
    /\ unlines (text_lines (stream w)) = stream w.
Proof.
  intros H. exists {| stdout := transcript D inv |}.
  split; [apply (run_writes D inv H)|].
  apply unlines_written, transcript_ends_lines.
Qed.

Lemma stream_whole_lines_witness :
  exists w,
    run {| DEBUG := false; NDEBUG := false |} ["prog"; "a" ++ nl ++ "b"]
    = Some (0, w)
    /\ unlines (text_lines (stream w)) = stream w.
Proof.
  apply (stream_whole_lines {| DEBUG := false; NDEBUG := false |}
                            ["prog"; "a" ++ nl ++ "b"]).
  reflexivity.
Defined.

End Stream.
